(** * EditableCommit: a shallow embedding of the React component

    The component of [client/src/components/EditableCommit.js] has two
    methods of interest: [handleChangeMessage], which writes the [message]
    property of the commit object it was given and then calls the parent's
    [onChange], and [render], which builds the form from the commit.

    JavaScript objects are mutable and shared, so commits live in a store
    and are handled through their location; property reads of missing keys
    give [undefined]; exceptions are an explicit completion. *)

From Stdlib Require Import Ascii.
From stdpp Require Import base option list strings gmap.

Local Open Scope string_scope.
Local Open Scope list_scope.

(** ** JavaScript values, as far as the component looks at them *)

Module JS.

(** The fields of a commit are strings; a field can also be missing
    ([undefined]) or [null] when the record came out of JSON. *)
Inductive jsval : Type :=
| VUndefined
| VNull
| VStr (s : string).

(** ToBoolean: what [if (v)] and [!v] look at. *)
Definition to_boolean (v : jsval) : bool :=
  match v with
  | VUndefined | VNull => false
  | VStr EmptyString => false
  | VStr (String _ _) => true
  end.

(** ToString: what [+] with a string operand applies to the other one. *)
Definition to_string (v : jsval) : string :=
  match v with
  | VUndefined => "undefined"
  | VNull => "null"
  | VStr s => s
  end.

(** ['...' + v] *)
Definition add (s : string) (v : jsval) : string := s +:+ to_string v.

(** [Array.prototype.join]: [undefined] and [null] elements contribute
    the empty string, every other element its ToString. *)
Definition join_elt (v : jsval) : string :=
  match v with
  | VUndefined | VNull => ""
  | VStr s => s
  end.

Fixpoint join (sep : string) (l : list jsval) : string :=
  match l with
  | [] => ""
  | [v] => join_elt v
  | v :: rest => join_elt v +:+ sep +:+ join sep rest
  end.

(** [!s] for a string [s]. *)
Definition str_falsy (s : string) : bool := negb (to_boolean (VStr s)).

(** Completions: a call returns normally or throws. *)
Inductive error : Type := TypeError.

Inductive completion (A : Type) : Type :=
| Normal (a : A)
| Throw (e : error).
Arguments Normal {A} a.
Arguments Throw {A} e.

End JS.
Export JS.

(** ** The object store *)

Module Store.

Definition loc : Type := positive.

(** An object is its own properties; a store maps locations to objects. *)
Abbreviation obj := (gmap string jsval).
Abbreviation heap := (gmap loc (gmap string jsval)).

(** [o.k]: a missing property reads as [undefined]. *)
Definition get_prop (o : obj) (k : string) : jsval :=
  default VUndefined (o !! k).

(** A function handed in by the parent component.  It receives the
    reference it is called with, can read and write the store, and can
    throw. *)
Definition callback : Type := loc → heap → completion unit * heap.

(** One entry of the log of calls into the parent: the argument and the
    store as it was when the call was made. *)
Record call : Type := mkCall { call_arg : loc; call_heap : heap }.

(** The store, and the calls made to the parent so far.  The log is not
    part of the program: it is how the embedding counts invocations. *)
Record world : Type := mkWorld { store : heap; calls : list call }.

(** Computations: state passing with exceptions; what was written before
    a throw stays written. *)
Definition M (A : Type) : Type := world → completion A * world.

Definition ret {A} (a : A) : M A := fun w => (Normal a, w).

Definition bind {A B} (m : M A) (k : A → M B) : M B :=
  fun w =>
    match m w with
    | (Normal a, w') => k a w'
    | (Throw e, w') => (Throw e, w')
    end.

(** [l.k = v].  A location outside the store stands for a reference that
    is not an object ([undefined], [null]): assigning through it throws. *)
Definition set_prop (l : loc) (k : string) (v : jsval) : M unit :=
  fun w =>
    match store w !! l with
    | Some o => (Normal tt, mkWorld (<[l := <[k := v]> o]> (store w)) (calls w))
    | None => (Throw TypeError, w)
    end.

(** [f(arg)] for a function taken from the props; calling a missing
    function throws. *)
Definition invoke (f : option callback) (arg : loc) : M unit :=
  fun w =>
    match f with
    | Some cb =>
        let '(r, h') := cb arg (store w) in
        (r, mkWorld h' (calls w ++ [mkCall arg (store w)]))
    | None => (Throw TypeError, w)
    end.

End Store.
Export Store.

Notation "m >>> k" := (bind m (fun _ => k))
  (at level 90, right associativity).

(** ** The element tree built by [render] *)

Module VDom.

(** The change event of a text area: [e.target.value] is the text. *)
Record target : Type := mkTarget { value : string }.
Record event : Type := mkEvent { target_of : target }.

Definition handler : Type := event → M unit.

Inductive attr : Type :=
| AStr (s : string)            (* name="literal" *)
| AExpr (v : jsval)            (* name={expression} *)
| AHandler (h : handler).      (* name={this.method} *)

#[warnings="-register-all"]
Inductive node : Type :=
| NExpr (v : jsval)            (* {expression} as a child *)
| NElem (tag : string) (attrs : list (string * attr)) (children : list node).

(** The descendant reached by taking the [i]-th child at each step. *)
Fixpoint child_at (path : list nat) (n : node) : option node :=
  match path with
  | [] => Some n
  | i :: rest =>
      match n with
      | NElem _ _ cs =>
          match cs !! i with
          | Some c => child_at rest c
          | None => None
          end
      | NExpr _ => None
      end
  end.

Fixpoint assoc (k : string) (l : list (string * attr)) : option attr :=
  match l with
  | [] => None
  | (k', a) :: rest => if String.eqb k k' then Some a else assoc k rest
  end.

(** The expression that is the only child of the element at [path]. *)
Definition text_at (path : list nat) (n : node) : option jsval :=
  match child_at path n with
  | Some (NElem _ _ [NExpr v]) => Some v
  | _ => None
  end.

(** The expression given for attribute [k] of the element at [path]. *)
Definition attr_at (path : list nat) (k : string) (n : node) : option jsval :=
  match child_at path n with
  | Some (NElem _ attrs _) =>
      match assoc k attrs with
      | Some (AExpr v) => Some v
      | _ => None
      end
  | _ => None
  end.

End VDom.
Export VDom.

(** ** The component *)

Module EditableCommit.

Definition UNKNOWN : string := "<unknown>".

(** [this.props] *)
Record Props : Type := mkProps {
  commit : loc;
  onChange : option callback
}.

Definition handleChangeMessage (props : Props) (e : event) : M unit :=
  let message := value (target_of e) in
  let commit := commit props in
  set_prop commit "message" (VStr message) >>>
  invoke (onChange props) commit.

Definition renderLabel (text : string) : node :=
  NElem "label" [("className", AStr "control-label col-sm-1")]
        [NExpr (VStr text)].

Definition renderStatic (text : node) : node :=
  NElem "p" [("className", AStr "form-control-static col-sm-11")] [text].

(** [render] only reads.  Reading a property through a reference that is
    not an object throws. *)
Definition render (props : Props) (h : heap) : completion node :=
  match h !! commit props with
  | None => Throw TypeError
  | Some commit =>
      let author := [get_prop commit "author"] in
      let author :=
        if to_boolean (get_prop commit "author_email")
        then author ++ [VStr (add "<" (get_prop commit "author_email") +:+ ">")]
        else author in
      let author := join " " author in
      let author := if str_falsy author then UNKNOWN else author in
      let date := get_prop commit "date" in
      let date := if negb (to_boolean date) then VStr UNKNOWN else date in
      Normal
        (NElem "form" [("role", AStr "form-horizontal")]
           [ NElem "div" [("className", AStr "form-group")]
               [ renderLabel "ID";
                 renderStatic (NElem "code" [] [NExpr (get_prop commit "node")]) ];
             NElem "div" [("className", AStr "form-group")]
               [ renderLabel "Author";
                 renderStatic (NExpr (VStr author)) ];
             NElem "div" [("className", AStr "form-group")]
               [ renderLabel "Date";
                 renderStatic (NExpr date) ];
             NElem "div" [("className", AStr "form-group clearfix")]
               [ renderLabel "Message";
                 NElem "div" [("className", AStr "col-sm-11")]
                   [ NElem "textarea"
                       [ ("className", AStr "form-control");
                         ("rows", AStr "5");
                         ("value", AExpr (get_prop commit "message"));
                         ("onChange", AHandler (handleChangeMessage props)) ]
                       [] ] ] ])
  end.

(** *** What the form shows *)

(** The four values a reader of the form sees, picked out of the tree
    by their position in it. *)
Definition shown_id (t : node) : option jsval := text_at [0; 1; 0]%nat t.
Definition shown_author (t : node) : option jsval := text_at [1; 1]%nat t.
Definition shown_date (t : node) : option jsval := text_at [2; 1]%nat t.
Definition shown_message (t : node) : option jsval :=
  attr_at [3; 1; 0]%nat "value" t.

Record view : Type := mkView {
  view_id : jsval;
  view_author : jsval;
  view_date : jsval;
  view_message : jsval
}.

Definition view_of (t : node) : option view :=
  match shown_id t, shown_author t, shown_date t, shown_message t with
  | Some i, Some a, Some d, Some m => Some (mkView i a d m)
  | _, _, _, _ => None
  end.

Definition rendered_view (props : Props) (h : heap) : option view :=
  match render props h with
  | Normal t => view_of t
  | Throw _ => None
  end.

End EditableCommit.
Export EditableCommit.

(** ** Concrete commits *)

Definition full_commit : gmap string jsval :=
  <["node" := VStr "abc123"]>
  (<["author" := VStr "Ann"]>
  (<["author_email" := VStr "ann@example.org"]>
  (<["date" := VStr "2014-03-01"]>
  (<["message" := VStr "initial"]> ∅)))).

Definition here : loc := 1%positive.

Definition noop : callback := fun _ h => (Normal tt, h).

Definition props0 : Props := mkProps here (Some noop).

(** A commit whose author, e-mail and date are empty strings. *)
Definition anonymous_commit : gmap string jsval :=
  <["node" := VStr "abc123"]>
  (<["author" := VStr ""]>
  (<["author_email" := VStr ""]>
  (<["date" := VStr ""]>
  (<["message" := VStr "initial"]> ∅)))).

(** A commit that has an e-mail but neither author nor date. *)
Definition mail_only_commit : gmap string jsval :=
  <["node" := VStr "abc123"]>
  (<["author_email" := VStr "ann@example.org"]>
  (<["message" := VStr "initial"]> ∅)).

(** A commit with an author and an empty e-mail. *)
Definition no_mail_commit : gmap string jsval :=
  <["node" := VStr "abc123"]>
  (<["author" := VStr "Ann"]>
  (<["author_email" := VStr ""]>
  (<["date" := VStr "2014-03-01"]>
  (<["message" := VStr "initial"]> ∅)))).

(** A second location and props without a callback. *)
Definition there : loc := 7%positive.

Definition props1 : Props := mkProps there None.

(** ** Further observations of the tree *)

(** The function given for attribute [k] of the element at [path]. *)
Definition handler_at (path : list nat) (k : string) (n : node) : option handler :=
  match child_at path n with
  | Some (NElem _ attrs _) =>
      match assoc k attrs with
      | Some (AHandler f) => Some f
      | _ => None
      end
  | _ => None
  end.

(** The text of the first child (the label) of every child of the root,
    top to bottom. *)
Definition group_labels (t : node) : list (option jsval) :=
  match t with
  | NElem _ _ groups => map (text_at [0]%nat) groups
  | NExpr _ => []
  end.

(** Whether a character occurs in a string. *)
Fixpoint mem_char (c : Ascii.ascii) (s : string) : bool :=
  match s with
  | EmptyString => false
  | String c' s' => if Ascii.eqb c c' then true else mem_char c s'
  end.

(** Props on the first location without a callback. *)
Definition props_silent : Props := mkProps here None.

Example render_full :
  rendered_view props0 {[ here := full_commit ]} =
  Some (mkView (VStr "abc123") (VStr "Ann <ann@example.org>")
               (VStr "2014-03-01") (VStr "initial")).
Proof. vm_compute. reflexivity. Qed.

Example render_empty_object :
  rendered_view props0 {[ here := ∅ ]} =
  Some (mkView VUndefined (VStr "<unknown>") (VStr "<unknown>") VUndefined).
Proof. vm_compute. reflexivity. Qed.


(** ** Properties *)

(** *** Small facts about the JavaScript operations *)

Lemma to_boolean_str (s : string) : s ≠ "" → to_boolean (VStr s) = true.
Proof. destruct s; [congruence | reflexivity]. Qed.

Lemma str_falsy_app (a b : string) : a ≠ "" → str_falsy (a +:+ b) = false.
Proof. destruct a; [congruence | reflexivity]. Qed.

Lemma str_falsy_nonempty (s : string) : s ≠ "" → str_falsy s = false.
Proof. destruct s; [congruence | reflexivity]. Qed.

Lemma get_prop_absent (o : gmap string jsval) (k : string) :
  o !! k = None → get_prop o k = VUndefined.
Proof. unfold get_prop. intros ->. reflexivity. Qed.

Lemma get_prop_insert_ne (o : gmap string jsval) (k k' : string) (v : jsval) :
  k' ≠ k → get_prop (<[k := v]> o) k' = get_prop o k'.
Proof. intros Hne. unfold get_prop. rewrite lookup_insert_ne; [reflexivity | congruence]. Qed.

Lemma get_prop_insert_eq (o : gmap string jsval) (k : string) (v : jsval) :
  get_prop (<[k := v]> o) k = v.
Proof. unfold get_prop. rewrite lookup_insert_eq. reflexivity. Qed.

(** *** What [render] puts where *)

(** On a commit that is an object, [render] returns a tree, and the four
    positions of the form hold the expressions computed at lines 19-32. *)
Lemma render_shows (p : Props) (h : gmap loc (gmap string jsval)) (o : gmap string jsval) :
  h !! commit p = Some o →
  ∃ t, render p h = Normal t
    ∧ shown_id t = Some (get_prop o "node")
    ∧ shown_author t =
        Some (VStr (let a :=
                      join " "
                        (if to_boolean (get_prop o "author_email")
                         then [get_prop o "author";
                               VStr (add "<" (get_prop o "author_email") +:+ ">")]
                         else [get_prop o "author"]) in
                    if str_falsy a then UNKNOWN else a))
    ∧ shown_date t =
        Some (if to_boolean (get_prop o "date")
              then get_prop o "date" else VStr UNKNOWN)
    ∧ shown_message t = Some (get_prop o "message").
Proof.
  intros Ho. unfold render. rewrite Ho.
  eexists. split; [reflexivity |].
  split; [reflexivity |].
  split; [cbn; destruct (to_boolean (get_prop o "author_email")); reflexivity |].
  split; [cbn; destruct (to_boolean (get_prop o "date")); reflexivity |].
  reflexivity.
Qed.

(** *** What [handleChangeMessage] does to the world *)

Lemma handleChangeMessage_run (p : Props) (e : event) (cb : callback)
      (w : world) (o : gmap string jsval) :
  onChange p = Some cb →
  store w !! commit p = Some o →
  handleChangeMessage p e w =
    let h' := <[commit p := <["message" := VStr (value (target_of e))]> o]> (store w) in
    (fst (cb (commit p) h'),
     mkWorld (snd (cb (commit p) h')) (calls w ++ [mkCall (commit p) h'])).
Proof.
  intros Hcb Ho.
  unfold handleChangeMessage, bind, set_prop, invoke.
  rewrite Ho, Hcb. cbn.
  destruct (cb _ _) as [r h'']. reflexivity.
Qed.

(** *** The message edit *)

(** C1. For every commit object and every new text, [handleChangeMessage]
    first writes the text into the [message] property of that object and
    then calls [onChange] exactly once, in the same run, with the very
    same reference; in the store the callback sees, the object's
    [message] is the new text.  The handler has no rejection of its own:
    its completion is the callback's, for any text, the empty one too. *)
Theorem handleChangeMessage_sets_and_notifies
    (p : Props) (e : event) (cb : callback) (w : world) (o : gmap string jsval) :
  onChange p = Some cb →
  store w !! commit p = Some o →
  ∃ (h' : gmap loc (gmap string jsval)) (o' : gmap string jsval),
    h' = <[commit p := <["message" := VStr (value (target_of e))]> o]> (store w)
    ∧ h' !! commit p = Some o'
    ∧ get_prop o' "message" = VStr (value (target_of e))
    ∧ calls (snd (handleChangeMessage p e w)) = calls w ++ [mkCall (commit p) h']
    ∧ store (snd (handleChangeMessage p e w)) = snd (cb (commit p) h')
    ∧ fst (handleChangeMessage p e w) = fst (cb (commit p) h').
Proof.
  intros Hcb Ho.
  rewrite (handleChangeMessage_run p e cb w o Hcb Ho). cbn.
  eexists _, _. split; [reflexivity |].
  split; [apply lookup_insert_eq |].
  split; [apply get_prop_insert_eq |].
  repeat split.
Qed.

Lemma handleChangeMessage_sets_and_notifies_witness :
  ∃ (h' : gmap loc (gmap string jsval)) (o' : gmap string jsval),
    h' = <[here := <["message" := VStr ""]> full_commit]> {[ here := full_commit ]}
    ∧ h' !! here = Some o'
    ∧ get_prop o' "message" = VStr ""
    ∧ calls (snd (handleChangeMessage props0 (mkEvent (mkTarget ""))
                    (mkWorld {[ here := full_commit ]} [])))
      = [mkCall here h']
    ∧ store (snd (handleChangeMessage props0 (mkEvent (mkTarget ""))
                    (mkWorld {[ here := full_commit ]} [])))
      = snd (noop here h')
    ∧ fst (handleChangeMessage props0 (mkEvent (mkTarget ""))
             (mkWorld {[ here := full_commit ]} []))
      = fst (noop here h').
Proof.
  refine (handleChangeMessage_sets_and_notifies props0 (mkEvent (mkTarget ""))
            noop (mkWorld {[ here := full_commit ]} []) full_commit _ _).
  - reflexivity.
  - vm_compute. reflexivity.
Defined.

(** C2. The edit writes [message] and nothing else: in the store handed
    to [onChange], every other property of the commit ([node], [author],
    [author_email], [date], ...) is as it was, present or missing, and
    every other object is untouched. *)
Theorem handleChangeMessage_frame
    (p : Props) (e : event) (cb : callback) (w : world) (o : gmap string jsval) :
  onChange p = Some cb →
  store w !! commit p = Some o →
  ∃ (h' : gmap loc (gmap string jsval)) (o' : gmap string jsval),
    calls (snd (handleChangeMessage p e w)) = calls w ++ [mkCall (commit p) h']
    ∧ store (snd (handleChangeMessage p e w)) = snd (cb (commit p) h')
    ∧ h' !! commit p = Some o'
    ∧ (∀ k : string, k ≠ "message" →
         o' !! k = o !! k ∧ get_prop o' k = get_prop o k)
    ∧ get_prop o' "node" = get_prop o "node"
    ∧ get_prop o' "author" = get_prop o "author"
    ∧ get_prop o' "author_email" = get_prop o "author_email"
    ∧ get_prop o' "date" = get_prop o "date"
    ∧ (∀ l : loc, l ≠ commit p → h' !! l = store w !! l).
Proof.
  intros Hcb Ho.
  rewrite (handleChangeMessage_run p e cb w o Hcb Ho). cbn.
  eexists _, _. split; [reflexivity |].
  split; [reflexivity |].
  split; [apply lookup_insert_eq |].
  split.
  { intros k Hk. split.
    - apply lookup_insert_ne. congruence.
    - apply get_prop_insert_ne. exact Hk. }
  repeat (split; [apply get_prop_insert_ne; discriminate |]).
  intros l Hl. apply lookup_insert_ne. congruence.
Qed.

Lemma handleChangeMessage_frame_witness :
  ∃ (h' : gmap loc (gmap string jsval)) (o' : gmap string jsval),
    calls (snd (handleChangeMessage props0 (mkEvent (mkTarget "fix bug"))
                  (mkWorld {[ here := full_commit ]} [])))
      = [] ++ [mkCall here h']
    ∧ store (snd (handleChangeMessage props0 (mkEvent (mkTarget "fix bug"))
                    (mkWorld {[ here := full_commit ]} [])))
      = snd (noop here h')
    ∧ h' !! here = Some o'
    ∧ (∀ k : string, k ≠ "message" →
         o' !! k = full_commit !! k ∧ get_prop o' k = get_prop full_commit k)
    ∧ get_prop o' "node" = get_prop full_commit "node"
    ∧ get_prop o' "author" = get_prop full_commit "author"
    ∧ get_prop o' "author_email" = get_prop full_commit "author_email"
    ∧ get_prop o' "date" = get_prop full_commit "date"
    ∧ (∀ l : loc, l ≠ here → h' !! l = ({[ here := full_commit ]} : gmap loc (gmap string jsval)) !! l).
Proof.
  refine (handleChangeMessage_frame props0 (mkEvent (mkTarget "fix bug"))
            noop (mkWorld {[ here := full_commit ]} []) full_commit _ _).
  - reflexivity.
  - vm_compute. reflexivity.
Defined.

Example edit_fix_bug :
  let w' := snd (handleChangeMessage props0 (mkEvent (mkTarget "fix bug"))
                   (mkWorld {[ here := full_commit ]} [])) in
  length (calls w') = 1%nat
  ∧ rendered_view props0 (store w') =
      Some (mkView (VStr "abc123") (VStr "Ann <ann@example.org>")
                   (VStr "2014-03-01") (VStr "fix bug")).
Proof. vm_compute. split; reflexivity. Qed.

(** *** The author line *)

(** C3. With a non-empty author and a non-empty e-mail, the author line
    is the author, a space, and the e-mail in angle brackets. *)
Theorem render_author_with_email
    (p : Props) (h : gmap loc (gmap string jsval)) (o : gmap string jsval)
    (a m : string) :
  h !! commit p = Some o →
  get_prop o "author" = VStr a → a ≠ "" →
  get_prop o "author_email" = VStr m → m ≠ "" →
  ∃ t, render p h = Normal t
    ∧ shown_author t = Some (VStr (a +:+ " <" +:+ m +:+ ">")).
Proof.
  intros Ho Ha Hne Hm Hme.
  destruct (render_shows p h o Ho) as (t & Ht & _ & Hauthor & _).
  exists t. split; [exact Ht |].
  rewrite Hauthor, Ha, Hm, (to_boolean_str m Hme). cbn.
  rewrite (str_falsy_app a _ Hne). reflexivity.
Qed.

Lemma render_author_with_email_witness :
  ∃ t, render props0 {[ here := full_commit ]} = Normal t
    ∧ shown_author t = Some (VStr ("Ann" +:+ " <" +:+ "ann@example.org" +:+ ">")).
Proof.
  refine (render_author_with_email props0 {[ here := full_commit ]} full_commit
            "Ann" "ann@example.org" _ _ _ _ _).
  - vm_compute. reflexivity.
  - vm_compute. reflexivity.
  - discriminate.
  - vm_compute. reflexivity.
  - discriminate.
Defined.

(** C4. With an empty author and an empty e-mail, the author line is the
    placeholder. *)
Theorem render_author_unknown
    (p : Props) (h : gmap loc (gmap string jsval)) (o : gmap string jsval) :
  h !! commit p = Some o →
  get_prop o "author" = VStr "" →
  get_prop o "author_email" = VStr "" →
  ∃ t, render p h = Normal t
    ∧ shown_author t = Some (VStr "<unknown>").
Proof.
  intros Ho Ha Hm.
  destruct (render_shows p h o Ho) as (t & Ht & _ & Hauthor & _).
  exists t. split; [exact Ht |].
  rewrite Hauthor, Ha, Hm. reflexivity.
Qed.

Lemma render_author_unknown_witness :
  ∃ t, render props0 {[ here := anonymous_commit ]} = Normal t
    ∧ shown_author t = Some (VStr "<unknown>").
Proof.
  refine (render_author_unknown props0 {[ here := anonymous_commit ]}
            anonymous_commit _ _ _).
  - vm_compute. reflexivity.
  - vm_compute. reflexivity.
  - vm_compute. reflexivity.
Defined.

(** C5. With an empty or missing author and a non-empty e-mail, the
    author line is a space followed by the e-mail in angle brackets; that
    is not the empty string, so the placeholder is not shown. *)
Theorem render_author_email_only
    (p : Props) (h : gmap loc (gmap string jsval)) (o : gmap string jsval)
    (m : string) :
  h !! commit p = Some o →
  get_prop o "author" = VStr "" ∨ o !! "author" = None →
  get_prop o "author_email" = VStr m → m ≠ "" →
  ∃ t, render p h = Normal t
    ∧ shown_author t = Some (VStr (" <" +:+ m +:+ ">"))
    ∧ " <" +:+ m +:+ ">" ≠ ""
    ∧ shown_author t ≠ Some (VStr UNKNOWN).
Proof.
  intros Ho Ha Hm Hme.
  destruct (render_shows p h o Ho) as (t & Ht & _ & Hauthor & _).
  exists t. split; [exact Ht |].
  assert (Hline : shown_author t = Some (VStr (" <" +:+ m +:+ ">"))).
  { rewrite Hauthor, Hm, (to_boolean_str m Hme).
    destruct Ha as [-> | Ha]; [| rewrite (get_prop_absent o _ Ha)]; reflexivity. }
  split; [exact Hline |].
  split; [discriminate |].
  rewrite Hline. discriminate.
Qed.

Lemma render_author_email_only_witness :
  ∃ t, render props0 {[ here := mail_only_commit ]} = Normal t
    ∧ shown_author t = Some (VStr (" <" +:+ "ann@example.org" +:+ ">"))
    ∧ " <" +:+ "ann@example.org" +:+ ">" ≠ ""
    ∧ shown_author t ≠ Some (VStr UNKNOWN).
Proof.
  refine (render_author_email_only props0 {[ here := mail_only_commit ]}
            mail_only_commit "ann@example.org" _ _ _ _).
  - vm_compute. reflexivity.
  - right. vm_compute. reflexivity.
  - vm_compute. reflexivity.
  - discriminate.
Defined.

(** C6. With a non-empty author and an empty e-mail, the author line is
    the author and nothing more. *)
Theorem render_author_only
    (p : Props) (h : gmap loc (gmap string jsval)) (o : gmap string jsval)
    (a : string) :
  h !! commit p = Some o →
  get_prop o "author" = VStr a → a ≠ "" →
  get_prop o "author_email" = VStr "" →
  ∃ t, render p h = Normal t
    ∧ shown_author t = Some (VStr a).
Proof.
  intros Ho Ha Hne Hm.
  destruct (render_shows p h o Ho) as (t & Ht & _ & Hauthor & _).
  exists t. split; [exact Ht |].
  rewrite Hauthor, Ha, Hm. cbn.
  rewrite (str_falsy_nonempty a Hne). reflexivity.
Qed.

Lemma render_author_only_witness :
  ∃ t, render props0 {[ here := no_mail_commit ]} = Normal t
    ∧ shown_author t = Some (VStr "Ann").
Proof.
  refine (render_author_only props0 {[ here := no_mail_commit ]}
            no_mail_commit "Ann" _ _ _ _).
  - vm_compute. reflexivity.
  - vm_compute. reflexivity.
  - discriminate.
  - vm_compute. reflexivity.
Defined.

(** *** The date and the ID *)

(** C7. The date line is the placeholder when the date is empty or
    missing, and the date itself, as it is, otherwise. *)
Theorem render_date
    (p : Props) (h : gmap loc (gmap string jsval)) (o : gmap string jsval) :
  h !! commit p = Some o →
  ∃ t, render p h = Normal t
    ∧ (get_prop o "date" = VStr "" ∨ o !! "date" = None →
       shown_date t = Some (VStr "<unknown>"))
    ∧ (∀ d : string, get_prop o "date" = VStr d → d ≠ "" →
       shown_date t = Some (VStr d)).
Proof.
  intros Ho.
  destruct (render_shows p h o Ho) as (t & Ht & _ & _ & Hdate & _).
  exists t. split; [exact Ht |]. split.
  - intros [Hd | Hd]; rewrite Hdate.
    + rewrite Hd. reflexivity.
    + rewrite (get_prop_absent o _ Hd). reflexivity.
  - intros d Hd Hne. rewrite Hdate, Hd, (to_boolean_str d Hne). reflexivity.
Qed.

Lemma render_date_witness :
  ∃ t, render props0 {[ here := full_commit ]} = Normal t
    ∧ (get_prop full_commit "date" = VStr "" ∨ full_commit !! "date" = None →
       shown_date t = Some (VStr "<unknown>"))
    ∧ (∀ d : string, get_prop full_commit "date" = VStr d → d ≠ "" →
       shown_date t = Some (VStr d)).
Proof.
  refine (render_date props0 {[ here := full_commit ]} full_commit _).
  vm_compute. reflexivity.
Defined.

Example render_date_missing :
  rendered_view props0 {[ here := mail_only_commit ]} =
  Some (mkView (VStr "abc123") (VStr " <ann@example.org>")
               (VStr "<unknown>") (VStr "initial")).
Proof. vm_compute. reflexivity. Qed.

(** C8. The ID shown is the [node] property as it is, whatever the other
    properties are; an empty [node] is shown empty, not as the
    placeholder. *)
Theorem render_id
    (p : Props) (h : gmap loc (gmap string jsval)) (o : gmap string jsval) :
  h !! commit p = Some o →
  ∃ t, render p h = Normal t
    ∧ shown_id t = Some (get_prop o "node")
    ∧ (get_prop o "node" = VStr "" →
       shown_id t = Some (VStr "") ∧ shown_id t ≠ Some (VStr UNKNOWN)).
Proof.
  intros Ho.
  destruct (render_shows p h o Ho) as (t & Ht & Hid & _).
  exists t. split; [exact Ht |]. split; [exact Hid |].
  intros Hn. rewrite Hid, Hn. split; [reflexivity | discriminate].
Qed.

Lemma render_id_witness :
  ∃ t, render props0 {[ here := full_commit ]} = Normal t
    ∧ shown_id t = Some (get_prop full_commit "node")
    ∧ (get_prop full_commit "node" = VStr "" →
       shown_id t = Some (VStr "") ∧ shown_id t ≠ Some (VStr UNKNOWN)).
Proof.
  refine (render_id props0 {[ here := full_commit ]} full_commit _).
  vm_compute. reflexivity.
Defined.

Example render_id_abc123 :
  match render props0 {[ here := full_commit ]} with
  | Normal t => shown_id t
  | Throw _ => None
  end = Some (VStr "abc123").
Proof. vm_compute. reflexivity. Qed.

(** *** Rendering as a whole *)

Lemma rendered_view_on
    (p : Props) (h : gmap loc (gmap string jsval)) (o : gmap string jsval) :
  h !! commit p = Some o →
  ∃ t v, render p h = Normal t
    ∧ view_of t = Some v
    ∧ rendered_view p h = Some v
    ∧ shown_id t = Some (view_id v)
    ∧ shown_author t = Some (view_author v)
    ∧ shown_date t = Some (view_date v)
    ∧ shown_message t = Some (view_message v).
Proof.
  intros Ho.
  destruct (render_shows p h o Ho) as (t & Ht & Hid & Hauthor & Hdate & Hmsg).
  exists t. eexists.
  split; [exact Ht |].
  assert (Hv : view_of t = Some (mkView _ _ _ _))
    by (unfold view_of; rewrite Hid, Hauthor, Hdate, Hmsg; reflexivity).
  split; [exact Hv |].
  split; [unfold rendered_view; rewrite Ht; exact Hv |].
  cbn. auto.
Qed.

(** C9. Rendering a commit never throws, whichever of its properties are
    missing or empty: a tree comes back with all four values in place;
    the author and the date lines are never blank (data or placeholder);
    a commit without author and e-mail, or without date, shows the
    placeholder there, and one without message gives the text area no
    text. *)
Theorem render_total
    (p : Props) (h : gmap loc (gmap string jsval)) (o : gmap string jsval) :
  h !! commit p = Some o →
  ∃ t v, render p h = Normal t
    ∧ view_of t = Some v
    ∧ (∃ s : string, view_author v = VStr s ∧ s ≠ "")
    ∧ (∃ s : string, view_date v = VStr s ∧ s ≠ "")
    ∧ view_message v = get_prop o "message"
    ∧ (o !! "author" = None → o !! "author_email" = None →
       view_author v = VStr "<unknown>")
    ∧ (o !! "date" = None → view_date v = VStr "<unknown>")
    ∧ (o !! "message" = None → view_message v = VUndefined).
Proof.
  intros Ho.
  destruct (render_shows p h o Ho) as (t & Ht & Hid & Hauthor & Hdate & Hmsg).
  destruct (rendered_view_on p h o Ho)
    as (t' & v & Ht' & Hv & _ & _ & Hva & Hvd & Hvm).
  assert (t' = t) by congruence. subst t'.
  rewrite Hauthor in Hva. rewrite Hdate in Hvd. rewrite Hmsg in Hvm.
  injection Hva as Hva. injection Hvd as Hvd. injection Hvm as Hvm.
  exists t, v. split; [exact Ht |]. split; [exact Hv |].
  split.
  { rewrite <- Hva. eexists. split; [reflexivity |].
    cbv zeta.
    destruct (str_falsy _) eqn:Hf; [discriminate |].
    intros Habs. rewrite Habs in Hf. discriminate. }
  split.
  { rewrite <- Hvd.
    destruct (get_prop o "date") as [| | [| c d]]; cbn;
      eexists; (split; [reflexivity | discriminate]). }
  split; [symmetry; exact Hvm |].
  split.
  { intros Ha Hm. rewrite <- Hva.
    rewrite (get_prop_absent o _ Ha), (get_prop_absent o _ Hm). reflexivity. }
  split.
  { intros Hd. rewrite <- Hvd, (get_prop_absent o _ Hd). reflexivity. }
  intros Hm. rewrite <- Hvm. apply get_prop_absent. exact Hm.
Qed.

Lemma render_total_witness :
  ∃ t v, render props0 {[ here := ∅ ]} = Normal t
    ∧ view_of t = Some v
    ∧ (∃ s : string, view_author v = VStr s ∧ s ≠ "")
    ∧ (∃ s : string, view_date v = VStr s ∧ s ≠ "")
    ∧ view_message v = get_prop ∅ "message"
    ∧ ((∅ : gmap string jsval) !! "author" = None →
       (∅ : gmap string jsval) !! "author_email" = None →
       view_author v = VStr "<unknown>")
    ∧ ((∅ : gmap string jsval) !! "date" = None → view_date v = VStr "<unknown>")
    ∧ ((∅ : gmap string jsval) !! "message" = None → view_message v = VUndefined).
Proof.
  refine (render_total props0 {[ here := ∅ ]} ∅ _).
  vm_compute. reflexivity.
Defined.

(** C10. Rendering consults the commit and nothing else: two renders of
    equal commit records, wherever the records live and whatever else the
    stores and the props hold, show the same ID, author line, date line
    and message. *)
Theorem render_deterministic
    (p1 p2 : Props) (h1 h2 : gmap loc (gmap string jsval)) (o : gmap string jsval) :
  h1 !! commit p1 = Some o →
  h2 !! commit p2 = Some o →
  ∃ v, rendered_view p1 h1 = Some v ∧ rendered_view p2 h2 = Some v.
Proof.
  intros H1 H2.
  destruct (render_shows p1 h1 o H1) as (t1 & Ht1 & Hi1 & Ha1 & Hd1 & Hm1).
  destruct (render_shows p2 h2 o H2) as (t2 & Ht2 & Hi2 & Ha2 & Hd2 & Hm2).
  eexists. unfold rendered_view, view_of.
  rewrite Ht1, Ht2, Hi1, Ha1, Hd1, Hm1, Hi2, Ha2, Hd2, Hm2.
  split; reflexivity.
Qed.

Lemma render_deterministic_witness :
  ∃ v, rendered_view props0 {[ here := full_commit ]} = Some v
     ∧ rendered_view props1 (<[there := full_commit]> {[ here := anonymous_commit ]}) = Some v.
Proof.
  refine (render_deterministic props0 props1 {[ here := full_commit ]}
            (<[there := full_commit]> {[ here := anonymous_commit ]})
            full_commit _ _).
  - vm_compute. reflexivity.
  - vm_compute. reflexivity.
Defined.

(** ** More on the message edit *)



(** No [onChange] in the props: the call throws, but only after the
    assignment, so the message is already written; no call is made. *)
Theorem handleChangeMessage_no_callback
    (p : Props) (e : event) (w : world) (o : gmap string jsval) :
  onChange p = None →
  store w !! commit p = Some o →
  handleChangeMessage p e w =
    (Throw TypeError,
     mkWorld (<[commit p := <["message" := VStr (value (target_of e))]> o]> (store w))
             (calls w)).
Proof.
  intros Hcb Ho. unfold handleChangeMessage, bind, set_prop, invoke.
  rewrite Ho, Hcb. reflexivity.
Qed.

Lemma handleChangeMessage_no_callback_witness :
  handleChangeMessage props_silent (mkEvent (mkTarget "fix bug"))
    (mkWorld {[ here := full_commit ]} [])
  = (Throw TypeError,
     mkWorld (<[here := <["message" := VStr "fix bug"]> full_commit]>
                {[ here := full_commit ]}) []).
Proof.
  refine (handleChangeMessage_no_callback props_silent
            (mkEvent (mkTarget "fix bug"))
            (mkWorld {[ here := full_commit ]} []) full_commit _ _).
  - reflexivity.
  - vm_compute. reflexivity.
Defined.

(** The edit neither creates nor removes an object, and the only
    property it can add to the commit is [message]. *)
Theorem handleChangeMessage_keeps_objects
    (p : Props) (e : event) (cb : callback) (w : world) (o : gmap string jsval) :
  onChange p = Some cb →
  store w !! commit p = Some o →
  ∃ (h' : gmap loc (gmap string jsval)) (o' : gmap string jsval),
    calls (snd (handleChangeMessage p e w)) = calls w ++ [mkCall (commit p) h']
    ∧ h' !! commit p = Some o'
    ∧ dom h' = dom (store w)
    ∧ dom o' = {["message"]} ∪ dom o.
Proof.
  intros Hcb Ho.
  rewrite (handleChangeMessage_run p e cb w o Hcb Ho). cbn.
  eexists _, _. split; [reflexivity |].
  split; [apply lookup_insert_eq |].
  split.
  - apply dom_insert_lookup_L. rewrite Ho. eauto.
  - apply dom_insert_L.
Qed.

Lemma handleChangeMessage_keeps_objects_witness :
  ∃ (h' : gmap loc (gmap string jsval)) (o' : gmap string jsval),
    calls (snd (handleChangeMessage props0 (mkEvent (mkTarget "fix bug"))
                  (mkWorld {[ here := mail_only_commit ]} [])))
      = [] ++ [mkCall here h']
    ∧ h' !! here = Some o'
    ∧ dom h' = dom ({[ here := mail_only_commit ]} : gmap loc (gmap string jsval))
    ∧ dom o' = {["message"]} ∪ dom mail_only_commit.
Proof.
  refine (handleChangeMessage_keeps_objects props0 (mkEvent (mkTarget "fix bug"))
            noop (mkWorld {[ here := mail_only_commit ]} []) mail_only_commit _ _).
  - reflexivity.
  - vm_compute. reflexivity.
Defined.

(** Two edits in a row, with a parent that only listens: both are
    announced, in order, each with its own text, and the store ends as
    after the second edit alone. *)
Theorem two_edits_last_wins
    (p : Props) (e1 e2 : event) (cb : callback) (w : world) (o : gmap string jsval) :
  onChange p = Some cb →
  (∀ l h, cb l h = (Normal tt, h)) →
  store w !! commit p = Some o →
  (handleChangeMessage p e1 >>> handleChangeMessage p e2) w =
    (Normal tt,
     mkWorld
       (<[commit p := <["message" := VStr (value (target_of e2))]> o]> (store w))
       (calls w ++
        [mkCall (commit p)
           (<[commit p := <["message" := VStr (value (target_of e1))]> o]> (store w));
         mkCall (commit p)
           (<[commit p := <["message" := VStr (value (target_of e2))]> o]> (store w))])).
Proof.
  intros Hcb Hpassive Ho. unfold bind at 1.
  rewrite (handleChangeMessage_run p e1 cb w o Hcb Ho). cbn.
  rewrite Hpassive. cbn.
  erewrite handleChangeMessage_run;
    [| exact Hcb | cbn; apply lookup_insert_eq].
  cbn. rewrite Hpassive. cbn.
  rewrite !insert_insert_eq, <- app_assoc. reflexivity.
Qed.

Lemma two_edits_last_wins_witness :
  (handleChangeMessage props0 (mkEvent (mkTarget "fix"))
     >>> handleChangeMessage props0 (mkEvent (mkTarget "fix bug")))
    (mkWorld {[ here := full_commit ]} []) =
    (Normal tt,
     mkWorld
       (<[here := <["message" := VStr "fix bug"]> full_commit]> {[ here := full_commit ]})
       ([] ++
        [mkCall here
           (<[here := <["message" := VStr "fix"]> full_commit]> {[ here := full_commit ]});
         mkCall here
           (<[here := <["message" := VStr "fix bug"]> full_commit]> {[ here := full_commit ]})])).
Proof.
  refine (two_edits_last_wins props0 (mkEvent (mkTarget "fix"))
            (mkEvent (mkTarget "fix bug")) noop
            (mkWorld {[ here := full_commit ]} []) full_commit _ _ _).
  - reflexivity.
  - intros l h. reflexivity.
  - vm_compute. reflexivity.
Defined.

(** ** More on rendering *)

Lemma render_same_object (p : Props) (h1 h2 : gmap loc (gmap string jsval)) :
  h1 !! commit p = h2 !! commit p → render p h1 = render p h2.
Proof. intros Heq. unfold render. rewrite Heq. reflexivity. Qed.

Lemma rendered_view_fields
    (p : Props) (h : gmap loc (gmap string jsval)) (o : gmap string jsval) :
  h !! commit p = Some o →
  ∃ v, rendered_view p h = Some v
    ∧ view_id v = get_prop o "node"
    ∧ view_author v =
        VStr (let a :=
                join " "
                  (if to_boolean (get_prop o "author_email")
                   then [get_prop o "author";
                         VStr (add "<" (get_prop o "author_email") +:+ ">")]
                   else [get_prop o "author"]) in
              if str_falsy a then UNKNOWN else a)
    ∧ view_date v =
        (if to_boolean (get_prop o "date")
         then get_prop o "date" else VStr UNKNOWN)
    ∧ view_message v = get_prop o "message".
Proof.
  intros Ho.
  destruct (render_shows p h o Ho) as (t & Ht & Hid & Hauthor & Hdate & Hmsg).
  eexists. unfold rendered_view, view_of.
  rewrite Ht, Hid, Hauthor, Hdate, Hmsg.
  split; [reflexivity |]. cbn. auto.
Qed.

Lemma mem_char_app_mid (c : Ascii.ascii) (a r : string) :
  mem_char c (a +:+ String c r) = true.
Proof.
  induction a as [| c' a IH].
  - change (mem_char c (String c r) = true). cbn -[Ascii.eqb].
    rewrite Ascii.eqb_refl. reflexivity.
  - change (mem_char c (String c' (a +:+ String c r)) = true). cbn -[Ascii.eqb].
    rewrite IH. destruct (Ascii.eqb c c'); reflexivity.
Qed.


(** The four groups of the form are labelled ID, Author, Date and
    Message, in this order, for every commit. *)
Theorem render_labels
    (p : Props) (h : gmap loc (gmap string jsval)) (o : gmap string jsval) :
  h !! commit p = Some o →
  ∃ t, render p h = Normal t
    ∧ group_labels t =
        [Some (VStr "ID"); Some (VStr "Author");
         Some (VStr "Date"); Some (VStr "Message")].
Proof.
  intros Ho. unfold render. rewrite Ho.
  eexists. split; reflexivity.
Qed.

Lemma render_labels_witness :
  ∃ t, render props0 {[ here := anonymous_commit ]} = Normal t
    ∧ group_labels t =
        [Some (VStr "ID"); Some (VStr "Author");
         Some (VStr "Date"); Some (VStr "Message")].
Proof.
  refine (render_labels props0 {[ here := anonymous_commit ]} anonymous_commit _).
  vm_compute. reflexivity.
Defined.

(** The author line is the placeholder exactly when there is no e-mail
    to show and the author is either blank (empty, missing, [null]) or
    is itself the text of the placeholder. *)
Theorem render_author_placeholder_iff
    (p : Props) (h : gmap loc (gmap string jsval)) (o : gmap string jsval) :
  h !! commit p = Some o →
  ∃ t, render p h = Normal t
    ∧ (shown_author t = Some (VStr "<unknown>") ↔
       to_boolean (get_prop o "author_email") = false
       ∧ (to_boolean (get_prop o "author") = false
          ∨ get_prop o "author" = VStr "<unknown>")).
Proof.
  intros Ho.
  destruct (render_shows p h o Ho) as (t & Ht & _ & Hauthor & _).
  exists t. split; [exact Ht |]. rewrite Hauthor. clear Hauthor.
  destruct (get_prop o "author_email") as [| | [| c m]]; cbn [to_boolean].
  4: {
    split; [| intros [Habs _]; discriminate].
    intros Hline. exfalso. injection Hline as Hline.
    cbn in Hline.
    assert (Hsp : mem_char " "%char
                    (join_elt (get_prop o "author") +:+
                     " " +:+ add "<" (VStr (String c m)) +:+ ">") = true)
      by exact (mem_char_app_mid " "%char (join_elt (get_prop o "author"))
                  (add "<" (VStr (String c m)) +:+ ">")).
    destruct (str_falsy _) eqn:Hf in Hline.
    - destruct (join_elt (get_prop o "author")); discriminate Hf.
    - rewrite Hline in Hsp. discriminate Hsp. }
  all: destruct (get_prop o "author") as [| | [| c s]]; cbn; unfold UNKNOWN;
    (split; [intros Hline; split; [reflexivity |]; (try (left; reflexivity));
             right; congruence
            | intros [_ [Hb | Hu]]; congruence]).
Qed.

Lemma render_author_placeholder_iff_witness :
  ∃ t, render props0 {[ here := mail_only_commit ]} = Normal t
    ∧ (shown_author t = Some (VStr "<unknown>") ↔
       to_boolean (get_prop mail_only_commit "author_email") = false
       ∧ (to_boolean (get_prop mail_only_commit "author") = false
          ∨ get_prop mail_only_commit "author" = VStr "<unknown>")).
Proof.
  refine (render_author_placeholder_iff props0 {[ here := mail_only_commit ]}
            mail_only_commit _).
  vm_compute. reflexivity.
Defined.

(** The date line is the placeholder exactly when the date is blank
    (empty, missing, [null]) or is itself the text of the placeholder;
    in every other case it is the date. *)
Theorem render_date_placeholder_iff
    (p : Props) (h : gmap loc (gmap string jsval)) (o : gmap string jsval) :
  h !! commit p = Some o →
  ∃ t, render p h = Normal t
    ∧ (shown_date t = Some (VStr "<unknown>") ↔
       to_boolean (get_prop o "date") = false
       ∨ get_prop o "date" = VStr "<unknown>")
    ∧ (shown_date t ≠ Some (VStr "<unknown>") →
       shown_date t = Some (get_prop o "date")).
Proof.
  intros Ho.
  destruct (render_shows p h o Ho) as (t & Ht & _ & _ & Hdate & _).
  exists t. split; [exact Ht |]. rewrite Hdate. clear Hdate.
  destruct (get_prop o "date") as [| | [| c d]]; cbn; unfold UNKNOWN;
    (split; [split; [intros Hline; (try (left; reflexivity)); right; congruence
                    | intros [Hb | Hu]; congruence]
            | congruence]).
Qed.

Lemma render_date_placeholder_iff_witness :
  ∃ t, render props0 {[ here := full_commit ]} = Normal t
    ∧ (shown_date t = Some (VStr "<unknown>") ↔
       to_boolean (get_prop full_commit "date") = false
       ∨ get_prop full_commit "date" = VStr "<unknown>")
    ∧ (shown_date t ≠ Some (VStr "<unknown>") →
       shown_date t = Some (get_prop full_commit "date")).
Proof.
  refine (render_date_placeholder_iff props0 {[ here := full_commit ]}
            full_commit _).
  vm_compute. reflexivity.
Defined.

(** ** The edit and the form together *)

(** Rendering the store that [onChange] receives, through any component
    mounted on the same commit object, shows the text just typed in the
    message field, and the same ID, author line and date line as before
    the edit. *)
Theorem edit_then_render
    (p p' : Props) (e : event) (cb : callback) (w : world) (o : gmap string jsval) :
  onChange p = Some cb →
  store w !! commit p = Some o →
  commit p' = commit p →
  ∃ (h' : gmap loc (gmap string jsval)) (v v' : view),
    calls (snd (handleChangeMessage p e w)) = calls w ++ [mkCall (commit p) h']
    ∧ rendered_view p' (store w) = Some v
    ∧ rendered_view p' h' = Some v'
    ∧ view_message v' = VStr (value (target_of e))
    ∧ view_id v' = view_id v
    ∧ view_author v' = view_author v
    ∧ view_date v' = view_date v.
Proof.
  intros Hcb Ho Hsame.
  rewrite (handleChangeMessage_run p e cb w o Hcb Ho). cbn.
  set (o' := <["message" := VStr (value (target_of e))]> o).
  assert (Ho' : (<[commit p := o']> (store w)) !! commit p' = Some o')
    by (rewrite Hsame; apply lookup_insert_eq).
  rewrite <- Hsame in Ho.
  destruct (rendered_view_fields p' (store w) o Ho)
    as (v & Hv & Hid & Hau & Hda & _).
  destruct (rendered_view_fields p' _ o' Ho')
    as (v' & Hv' & Hid' & Hau' & Hda' & Hms').
  exists (<[commit p := o']> (store w)), v, v'.
  split; [reflexivity |]. split; [exact Hv |]. split; [exact Hv' |].
  split; [rewrite Hms'; apply get_prop_insert_eq |].
  unfold o' in Hid', Hau', Hda'. cbv zeta in Hau'.
  rewrite get_prop_insert_ne in Hid' by discriminate.
  rewrite (get_prop_insert_ne o "message" "author") in Hau' by discriminate.
  rewrite (get_prop_insert_ne o "message" "author_email") in Hau' by discriminate.
  rewrite (get_prop_insert_ne o "message" "date") in Hda' by discriminate.
  rewrite Hid, Hau, Hda. auto.
Qed.

Lemma edit_then_render_witness :
  ∃ (h' : gmap loc (gmap string jsval)) (v v' : view),
    calls (snd (handleChangeMessage props0 (mkEvent (mkTarget "fix bug"))
                  (mkWorld {[ here := full_commit ]} [])))
      = [] ++ [mkCall here h']
    ∧ rendered_view props_silent {[ here := full_commit ]} = Some v
    ∧ rendered_view props_silent h' = Some v'
    ∧ view_message v' = VStr "fix bug"
    ∧ view_id v' = view_id v
    ∧ view_author v' = view_author v
    ∧ view_date v' = view_date v.
Proof.
  refine (edit_then_render props0 props_silent (mkEvent (mkTarget "fix bug"))
            noop (mkWorld {[ here := full_commit ]} []) full_commit _ _ _).
  - reflexivity.
  - vm_compute. reflexivity.
  - reflexivity.
Defined.

(** An edit of one commit leaves the form of a component mounted on
    another commit object exactly as it was. *)
Theorem edit_leaves_other_forms
    (p p' : Props) (e : event) (cb : callback) (w : world) (o : gmap string jsval) :
  onChange p = Some cb →
  store w !! commit p = Some o →
  commit p' ≠ commit p →
  ∃ h' : gmap loc (gmap string jsval),
    calls (snd (handleChangeMessage p e w)) = calls w ++ [mkCall (commit p) h']
    ∧ render p' h' = render p' (store w).
Proof.
  intros Hcb Ho Hother.
  rewrite (handleChangeMessage_run p e cb w o Hcb Ho). cbn.
  eexists. split; [reflexivity |].
  apply render_same_object. apply lookup_insert_ne. congruence.
Qed.

Lemma edit_leaves_other_forms_witness :
  ∃ h' : gmap loc (gmap string jsval),
    calls (snd (handleChangeMessage props0 (mkEvent (mkTarget "fix bug"))
                  (mkWorld (<[there := no_mail_commit]> {[ here := full_commit ]}) [])))
      = [] ++ [mkCall here h']
    ∧ render props1 h'
      = render props1 (<[there := no_mail_commit]> {[ here := full_commit ]}).
Proof.
  refine (edit_leaves_other_forms props0 props1 (mkEvent (mkTarget "fix bug"))
            noop (mkWorld (<[there := no_mail_commit]> {[ here := full_commit ]}) [])
            full_commit _ _ _).
  - reflexivity.
  - vm_compute. reflexivity.
  - discriminate.
Defined.

(** The text area of the rendered form carries a change handler; firing
    it, with a parent that only listens, returns normally, announces the
    change once, and a new render of the resulting store shows the typed
    text in the text area. *)
Theorem fire_change_then_render
    (p : Props) (h : gmap loc (gmap string jsval)) (o : gmap string jsval)
    (cb : callback) (t : node) :
  onChange p = Some cb →
  (∀ l h0, cb l h0 = (Normal tt, h0)) →
  h !! commit p = Some o →
  render p h = Normal t →
  ∃ f : handler,
    handler_at [3; 1; 0]%nat "onChange" t = Some f
    ∧ ∀ (e : event) (cs : list call),
        fst (f e (mkWorld h cs)) = Normal tt
        ∧ length (calls (snd (f e (mkWorld h cs)))) = S (length cs)
        ∧ ∃ t', render p (store (snd (f e (mkWorld h cs)))) = Normal t'
              ∧ shown_message t' = Some (VStr (value (target_of e))).
Proof.
  intros Hcb Hpassive Ho Ht.
  unfold render in Ht. rewrite Ho in Ht. injection Ht as <-.
  exists (handleChangeMessage p). split; [reflexivity |].
  intros e cs.
  rewrite (handleChangeMessage_run p e cb (mkWorld h cs) o Hcb Ho). cbn.
  rewrite Hpassive. cbn.
  split; [reflexivity |].
  split; [rewrite length_app; cbn; lia |].
  destruct (render_shows p
              (<[commit p := <["message" := VStr (value (target_of e))]> o]> h)
              (<["message" := VStr (value (target_of e))]> o))
    as (t' & Ht' & _ & _ & _ & Hmsg); [apply lookup_insert_eq |].
  exists t'. split; [exact Ht' |].
  rewrite Hmsg, get_prop_insert_eq. reflexivity.
Qed.

Lemma fire_change_then_render_witness :
  ∃ t0, render props0 {[ here := full_commit ]} = Normal t0
  ∧ ∃ f : handler,
    handler_at [3; 1; 0]%nat "onChange" t0 = Some f
    ∧ ∀ (e : event) (cs : list call),
        fst (f e (mkWorld {[ here := full_commit ]} cs)) = Normal tt
        ∧ length (calls (snd (f e (mkWorld {[ here := full_commit ]} cs))))
          = S (length cs)
        ∧ ∃ t', render props0 (store (snd (f e (mkWorld {[ here := full_commit ]} cs))))
                = Normal t'
              ∧ shown_message t' = Some (VStr (value (target_of e))).
Proof.
  eexists. split; [vm_compute; reflexivity |].
  refine (fire_change_then_render props0 {[ here := full_commit ]} full_commit
            noop _ _ _ _ _).
  - reflexivity.
  - intros l h0. reflexivity.
  - vm_compute. reflexivity.
  - vm_compute. reflexivity.
Defined.
